(** * upload_to_archon.py: the document batch preparer

    A shallow embedding of [src/upload_to_archon.py].  The script walks a
    manifest of documents, reads each referenced file from a directory,
    builds a dictionary around the content and prints a five-line preview;
    after the loop it prints an instruction and the manifest length.

    Python values are modelled as follows.
    - [str] is a sequence of Unicode code points, so that [len] counts
      characters as Python does.
    - a [dict] with string keys is an association list in insertion order,
      the order Python's [keys()] reports.
    - a manifest entry, a [dict] with the keys file, title and summary, is
      a record with these three fields.
    - standard output is the list of the strings handed to [print], one
      element per call; [stdout_text] is the text that reaches the stream.
      Writing to the stream is taken to succeed.
    - an exception aborts the computation and keeps what was printed.
    The file system and [pathlib]'s path joining are the environment: they
    are variables of the section that holds the script. *)

From Stdlib Require Import List NArith Arith Lia Bool.
From Stdlib Require Import Ascii String DecimalString DecimalFacts DecimalNat.
Import ListNotations.

(** [length] is the one of lists throughout. *)
#[local] Abbreviation length := List.length (only parsing).

Set Implicit Arguments.

(** ** Python strings *)

Module PyStr.

(** A character is its code point. *)
Definition char : Type := N.
Definition str : Type := list char.

Definition char_eq_dec : forall a b : char, {a = b} + {a <> b} := N.eq_dec.
Definition str_eq_dec : forall a b : str, {a = b} + {a <> b} :=
  list_eq_dec char_eq_dec.

(** A literal of the source, all of which are ASCII. *)
Definition lit (s : string) : str := map N_of_ascii (list_ascii_of_string s).

Definition newline : char := 10%N.
Definition underscore : char := 95%N.
Definition hyphen : char := 45%N.

(** [len(s)], for a string and for a list. *)
Definition len {A : Type} (s : list A) : nat := List.length s.

(** [c * n] for a one-character string [c]. *)
Definition times (c : char) (n : nat) : str := repeat c n.

(** [str(n)], also what an f-string writes for an integer: decimal digits,
    no sign, no leading zero. *)
Definition dec (n : nat) : str := lit (NilZero.string_of_uint (Nat.to_uint n)).

(** [s.split(sep)] for a separator of one character: the pieces between
    the occurrences of [sep], always at least one piece. *)
Fixpoint split (sep : char) (s : str) : list str :=
  match s with
  | [] => [[]]
  | c :: s' =>
      if N.eqb c sep then [] :: split sep s'
      else match split sep s' with
           | [] => [[c]]
           | p :: ps => (c :: p) :: ps
           end
  end.

(** [sep.join(l)] *)
Fixpoint join (sep : str) (l : list str) : str :=
  match l with
  | [] => []
  | [x] => x
  | x :: rest => x ++ sep ++ join sep rest
  end.

(** [repr(s)] for a string of letters, digits and underscores, where
    Python writes the string between single quotes with no escape. *)
Definition repr (s : str) : str := lit "'" ++ s ++ lit "'".

(** [repr(l)] for a list of strings, as an f-string writes it. *)
Definition repr_list (l : list str) : str :=
  lit "[" ++ join (lit ", ") (map repr l) ++ lit "]".

(** The position of the first occurrence of [c] in [s], if any. *)
Fixpoint find (c : char) (s : str) : option nat :=
  match s with
  | [] => None
  | x :: s' => if N.eqb x c then Some 0
               else match find c s' with
                    | Some i => Some (S i)
                    | None => None
                    end
  end.

End PyStr.
Import PyStr.

(** ** Exceptions, results and output *)

(** The exceptions the statements of the script can raise.  Opening a
    file raises an [OSError], of the subclass that fits the cause, which
    carries the path it was given; an [OSError] raised while reading carries
    none.  A path that holds a NUL character raises a [ValueError] before
    any file is looked at.  Bytes that do not decode raise a
    [UnicodeDecodeError], which carries the codec, the offending range and
    a reason but no path.  Indexing a list out of range raises
    [IndexError]. *)
Inductive exn : Type :=
| FileNotFoundError (filename : str)
| PermissionError (filename : str)
| IsADirectoryError (filename : str)
| NotADirectoryError (filename : str)
| OSError (errno : N) (filename : option str)
| UnicodeDecodeError (encoding : str) (start stop : N) (reason : str)
| ValueError (message : str)
| IndexError.

(** The class of an exception. *)
Inductive exn_class : Type :=
| CFileNotFoundError | CPermissionError | CIsADirectoryError
| CNotADirectoryError | COSError | CUnicodeDecodeError | CValueError
| CIndexError.

Definition class_of (e : exn) : exn_class :=
  match e with
  | FileNotFoundError _ => CFileNotFoundError
  | PermissionError _ => CPermissionError
  | IsADirectoryError _ => CIsADirectoryError
  | NotADirectoryError _ => CNotADirectoryError
  | OSError _ _ => COSError
  | UnicodeDecodeError _ _ _ _ => CUnicodeDecodeError
  | ValueError _ => CValueError
  | IndexError => CIndexError
  end.

(** [isinstance(e, OSError)] *)
Definition is_OSError (e : exn) : bool :=
  match e with
  | FileNotFoundError _ | PermissionError _ | IsADirectoryError _
  | NotADirectoryError _ | OSError _ _ => true
  | _ => false
  end.

(** The [filename] attribute, which only [OSError] has. *)
Definition exn_filename (e : exn) : option str :=
  match e with
  | FileNotFoundError f | PermissionError f | IsADirectoryError f
  | NotADirectoryError f => Some f
  | OSError _ f => f
  | _ => None
  end.

Inductive result (A : Type) : Type :=
| Ok (a : A)
| Raise (e : exn).
Arguments Raise {A} e.

(** A computation: the strings it printed, in order, and how it ended. *)
Definition io (A : Type) : Type := (list str * result A)%type.

Definition ret {A} (a : A) : io A := ([], Ok a).
Definition raise {A} (e : exn) : io A := ([], Raise e).
Definition print (s : str) : io unit := ([s], Ok tt).

Definition bind {A B} (m : io A) (k : A -> io B) : io B :=
  match m with
  | (out, Ok a) => let (out', r) := k a in (out ++ out', r)
  | (out, Raise e) => (out, Raise e)
  end.

Declare Scope io_scope.
Delimit Scope io_scope with io.
Notation "x <- m ;; k" := (bind m (fun x => k))
  (at level 61, m at next level, right associativity) : io_scope.
Notation "m ;; k" := (bind m (fun _ => k))
  (at level 61, right associativity) : io_scope.
Open Scope io_scope.

Definition printed {A} (m : io A) : list str := fst m.
Definition outcome {A} (m : io A) : result A := snd m.

(** What reaches the stream: [print] ends each string with a newline. *)
Definition stdout_text (out : list str) : str :=
  flat_map (fun s => s ++ [newline]) out.

(** [for x in l: body(x)] *)
Fixpoint for_each {A} (body : A -> io unit) (l : list A) : io unit :=
  match l with
  | [] => ret tt
  | x :: rest => body x ;; for_each body rest
  end.

(** [l[0]] *)
Definition getitem0 {A} (l : list A) : io A :=
  match l with
  | [] => raise IndexError
  | x :: _ => ret x
  end.

(** ** Dictionaries with string keys *)

Definition dict : Type := list (str * str).

(** [d[k] = v]: an existing key keeps its place, a new key goes last. *)
Fixpoint dict_set (d : dict) (k v : str) : dict :=
  match d with
  | [] => [(k, v)]
  | (k', v') :: rest =>
      if str_eq_dec k' k then (k', v) :: rest else (k', v') :: dict_set rest k v
  end.

(** A dictionary display [{k1: v1, ..., kn: vn}]. *)
Definition dict_display (items : list (str * str)) : dict :=
  fold_left (fun d kv => dict_set d (fst kv) (snd kv)) items [].

(** [list(d.keys())] *)
Definition keys (d : dict) : list str := map fst d.

(** ** The manifest *)

Record doc : Type := mkDoc { file : str; title : str; summary : str }.

Definition documents : list doc :=
  [ mkDoc (lit "01_executive_summary.md")
          (lit "Part 1: Executive Summary")
          (lit "Overview of cursor-memory-bank analysis and Pydantic AI replication strategy");
    mkDoc (lit "02_van_mode_workflow.md")
          (lit "Part 2: VAN Mode Workflow")
          (lit "Detailed analysis of VAN mode initialization, complexity detection, and forced transitions");
    mkDoc (lit "03_plan_creative_modes.md")
          (lit "Part 3: PLAN and CREATIVE Modes")
          (lit "Analysis of planning and creative design workflows with lazy loading");
    mkDoc (lit "04_lazy_loading_implementation.md")
          (lit "Part 4: Lazy Loading Deep Dive")
          (lit "Technical deep dive into hierarchical rule loading and 78% token reduction");
    mkDoc (lit "05_pydantic_ai_complete_code.md")
          (lit "Part 5: Pydantic AI Complete Code")
          (lit "Full implementation code for all agents, orchestrator, and lazy loader");
    mkDoc (lit "06_implementation_guide.md")
          (lit "Part 6: Implementation Guide")
          (lit "Step-by-step setup guide, testing, and deployment instructions");
    mkDoc (lit "07_comparison_conclusion.md")
          (lit "Part 7: Comparison & Conclusion")
          (lit "Feature comparison, use case recommendations, and final analysis") ].

Definition PROJECT_ID : str := lit "0df6b7ed-4fef-4d1b-9b37-1e496099042b".

Definition SECTIONS_DIR : str := lit "analysis_sections".

(** [d.get(k)] *)
Fixpoint dict_get (d : dict) (k : str) : option str :=
  match d with
  | [] => None
  | (k', v) :: rest => if str_eq_dec k' k then Some v else dict_get rest k
  end.

(** The names bound at module level before the loop runs. *)
Record globals : Type := mkGlobals {
  g_documents : list doc;
  g_PROJECT_ID : str;
  g_SECTIONS_DIR : str
}.

Definition module_globals : globals := mkGlobals documents PROJECT_ID SECTIONS_DIR.

Definition with_PROJECT_ID (p : str) (g : globals) : globals :=
  mkGlobals (g_documents g) p (g_SECTIONS_DIR g).

(** ** The file system *)

(** What [read_text] finds at a path: a file whose bytes decode to a text, no
    file, a file the process may not open, a file whose bytes do not decode
    in the codec in use, a directory, a path one of whose components is no
    directory, a path that holds a NUL character, or any other condition
    under which opening or reading raises, with the exception raised (an
    [OSError] for an input or output error, for one). *)
Inductive file_state : Type :=
| Text (content : str)
| Missing
| Denied
| Undecodable (encoding : str) (start stop : N) (reason : str)
| IsDirectory
| NotUnderDirectory
| InvalidName
| OtherFailure (e : exn).

(** ** The script *)

Section Script.

(** [str(dir / name)]: the path [pathlib] builds from a directory and a
    file name, as a string. *)
Variable joinpath : str -> str -> str.

(** The files as they are during the run; the script writes none. *)
Variable fs : str -> file_state.

(** [Path.read_text()] *)
Definition read_text (path : str) : io str :=
  match fs path with
  | Text content => ret content
  | Missing => raise (FileNotFoundError path)
  | Denied => raise (PermissionError path)
  | Undecodable enc a b why => raise (UnicodeDecodeError enc a b why)
  | IsDirectory => raise (IsADirectoryError path)
  | NotUnderDirectory => raise (NotADirectoryError path)
  | InvalidName => raise (ValueError (lit "embedded null byte"))
  | OtherFailure e => raise e
  end.

(** The dictionary of lines 60 to 65, its values evaluated in order. *)
Definition content_json (d : doc) (filepath content : str) : io dict :=
  part <- getitem0 (split underscore (file d)) ;;
  ret (dict_display [ (lit "markdown_content", content);
                      (lit "summary", summary d);
                      (lit "part", part);
                      (lit "file_reference", filepath) ]).

(** One iteration of the loop, lines 56 to 71. *)
Definition loop_body (dir : str) (d : doc) : io unit :=
  let filepath := joinpath dir (file d) in
  content <- read_text filepath ;;
  cj <- content_json d filepath content ;;
  print (lit "Document: " ++ title d) ;;
  print (lit "File: " ++ file d) ;;
  print (lit "Size: " ++ dec (len content) ++ lit " characters") ;;
  print (lit "Content keys: " ++ repr_list (keys cj)) ;;
  print (times hyphen 60).

(** The loop and the two prints after it, lines 55 to 74. *)
Definition script (g : globals) : io unit :=
  for_each (loop_body (g_SECTIONS_DIR g)) (g_documents g) ;;
  print (newline :: lit "To upload these to Archon, call manage_document for each with the content_json structure above.") ;;
  print (newline :: lit "Total documents: " ++ dec (len (g_documents g))).

(** The loop alone. *)
Definition loop (g : globals) : io unit :=
  for_each (loop_body (g_SECTIONS_DIR g)) (g_documents g).

End Script.

(** A joining function for examples: a file name with no slash under a
    directory name with no slash, where [pathlib] writes one slash between
    the two. *)
Definition join_flat (dir name : str) : str := dir ++ lit "/" ++ name.

(** A file system given by a table; a path not in the table has no file. *)
Fixpoint fs_of_table (t : list (str * file_state)) (path : str) : file_state :=
  match t with
  | [] => Missing
  | (p, st) :: rest => if str_eq_dec p path then st else fs_of_table rest path
  end.

(** ** Vocabulary of the statements *)

(** The five strings of a preview: title, file name, size, keys, rule. *)
Definition preview (d : doc) (content : str) : list str :=
  [ lit "Document: " ++ title d;
    lit "File: " ++ file d;
    lit "Size: " ++ dec (len content) ++ lit " characters";
    lit "Content keys: ['markdown_content', 'summary', 'part', 'file_reference']";
    lit "------------------------------------------------------------" ].

Definition separator : str := times hyphen 60.

(** The two strings printed after the loop for a manifest of [n] entries. *)
Definition trailer (n : nat) : list str :=
  [ newline :: lit "To upload these to Archon, call manage_document for each with the content_json structure above.";
    newline :: lit "Total documents: " ++ dec n ].

(** The file name up to its first underscore, the whole name without one. *)
Definition leading_token (name : str) : str :=
  match find underscore name with
  | Some i => firstn i name
  | None => name
  end.

(** The text of a readable file. *)
Definition text_at (fs : str -> file_state) (path : str) : option str :=
  match fs path with
  | Text c => Some c
  | _ => None
  end.

(** [contents_of joinpath fs dir docs cs]: each entry's file is readable and
    [cs] lists the texts, entry by entry. *)
Definition contents_of (joinpath : str -> str -> str) (fs : str -> file_state)
    (dir : str) (docs : list doc) (cs : list str) : Prop :=
  Forall2 (fun d c => fs (joinpath dir (file d)) = Text c) docs cs.

(** The previews of the entries [docs] with the texts [cs], in order. *)
Fixpoint previews (docs : list doc) (cs : list str) : list str :=
  match docs, cs with
  | d :: docs', c :: cs' => preview d c ++ previews docs' cs'
  | _, _ => []
  end.

(** ** Sample runs *)

(** A manifest of three entries whose first and last name the same file. *)
Definition doc_one : doc := mkDoc (lit "a_one.md") (lit "One") (lit "first").
Definition doc_two : doc := mkDoc (lit "b_two.md") (lit "Two") (lit "second").
Definition doc_one_again : doc := mkDoc (lit "a_one.md") (lit "One again") (lit "third").

Definition sample_globals : globals :=
  mkGlobals [doc_one; doc_two; doc_one_again] (lit "id-1") (lit "sec").

(** Both files are there. *)
Definition fs_complete : str -> file_state :=
  fs_of_table [ (lit "sec/a_one.md", Text (lit "hello"));
                (lit "sec/b_two.md", Text (lit "hi")) ].

(** The file of the second entry is absent. *)
Definition fs_second_missing : str -> file_state :=
  fs_of_table [ (lit "sec/a_one.md", Text (lit "hello")) ].

(** The file of the second entry may not be opened. *)
Definition fs_second_denied : str -> file_state :=
  fs_of_table [ (lit "sec/a_one.md", Text (lit "hello"));
                (lit "sec/b_two.md", Denied) ].

(** The file of the second entry holds a byte that is not UTF-8. *)
Definition fs_second_undecodable : str -> file_state :=
  fs_of_table [ (lit "sec/a_one.md", Text (lit "hello"));
                (lit "sec/b_two.md",
                 Undecodable (lit "utf-8") 0 1 (lit "invalid start byte")) ].

(** Every path holds the same one-line text. *)
Definition fs_everywhere : str -> file_state := fun _ => Text (lit "# heading").

(** ** Vocabulary of the further properties *)

(** Two states of a file that a read followed by [len] cannot tell apart:
    texts of the same length, or the same failure. *)
Definition same_size (s1 s2 : file_state) : Prop :=
  match s1, s2 with
  | Text c1, Text c2 => length c1 = length c2
  | Text _, _ | _, Text _ => False
  | _, _ => s1 = s2
  end.

(** The files of [fs_complete] with other texts of the same lengths. *)
Definition fs_other_texts : str -> file_state :=
  fs_of_table [ (lit "sec/a_one.md", Text (lit "HELLO"));
                (lit "sec/b_two.md", Text (lit "yo")) ].

(** The files of [fs_complete] and one more, which no entry names. *)
Definition fs_one_more : str -> file_state :=
  fs_of_table [ (lit "sec/c_three.md", Text (lit "unrelated"));
                (lit "sec/a_one.md", Text (lit "hello"));
                (lit "sec/b_two.md", Text (lit "hi")) ].

(** No file at all. *)
Definition fs_nothing : str -> file_state := fs_of_table [].

(** The sample manifest with other titles and summaries. *)
Definition sample_globals_relabelled : globals :=
  mkGlobals [ mkDoc (lit "a_one.md") (lit "Uno") (lit "primero");
              mkDoc (lit "b_two.md") (lit "Dos") (lit "segundo");
              mkDoc (lit "a_one.md") (lit "Uno otra vez") (lit "tercero") ]
            (lit "id-1") (lit "sec").

(** The sample manifest with other summaries only. *)
Definition sample_globals_resummarised : globals :=
  mkGlobals [ mkDoc (lit "a_one.md") (lit "One") (lit "primero");
              mkDoc (lit "b_two.md") (lit "Two") (lit "segundo");
              mkDoc (lit "a_one.md") (lit "One again") (lit "tercero") ]
            (lit "id-1") (lit "sec").

Unset Implicit Arguments.

(** ** The monad *)

Lemma bind_ret_l {A B} (a : A) (k : A -> io B) : bind (ret a) k = k a.
Proof. unfold bind, ret. destruct (k a); reflexivity. Qed.

(** ** Splitting at the underscore *)

Lemma split_head (sep : char) (s : str) :
  exists rest,
    split sep s = match find sep s with Some i => firstn i s | None => s end :: rest.
Proof.
  induction s as [|c s IH]; simpl.
  - exists []. reflexivity.
  - destruct (N.eqb c sep).
    + eexists. reflexivity.
    + destruct IH as [rest IH]. rewrite IH.
      exists rest. destruct (find sep s); reflexivity.
Qed.

Lemma getitem0_split (s : str) :
  getitem0 (split underscore s) = ret (leading_token s).
Proof.
  destruct (split_head underscore s) as [rest H].
  unfold leading_token. rewrite H. reflexivity.
Qed.

Lemma find_none_notin (c : char) (s : str) : find c s = None -> ~ In c s.
Proof.
  induction s as [|x s IH]; simpl; intros H; [tauto|].
  destruct (N.eqb_spec x c) as [E|E]; [discriminate|].
  destruct (find c s); [discriminate|].
  intros [F|F]; [exact (E F)|exact (IH eq_refl F)].
Qed.

Lemma find_some_spec (c : char) (s : str) (i : nat) :
  find c s = Some i ->
  nth_error s i = Some c /\ ~ In c (firstn i s).
Proof.
  revert i. induction s as [|x s IH]; simpl; intros i H; [discriminate|].
  destruct (N.eqb_spec x c) as [E|E].
  - inversion H; subst. simpl. split; [reflexivity|tauto].
  - destruct (find c s) as [j|] eqn:F; [|discriminate].
    inversion H; subst. destruct (IH j eq_refl) as [H1 H2].
    simpl. split; [exact H1|]. intros [G|G]; [exact (E G)|exact (H2 G)].
Qed.

(** ** One iteration *)

Section Iteration.

Variable joinpath : str -> str -> str.
Variable fs : str -> file_state.

Lemma content_json_value (d : doc) (filepath content : str) :
  content_json d filepath content =
  ret [ (lit "markdown_content", content);
        (lit "summary", summary d);
        (lit "part", leading_token (file d));
        (lit "file_reference", filepath) ].
Proof.
  unfold content_json. rewrite getitem0_split, bind_ret_l. reflexivity.
Qed.

Lemma loop_body_text (dir : str) (d : doc) (c : str) :
  fs (joinpath dir (file d)) = Text c ->
  loop_body joinpath fs dir d = (preview d c, Ok tt).
Proof.
  intros H. unfold loop_body, read_text. rewrite H, bind_ret_l.
  rewrite content_json_value, bind_ret_l. reflexivity.
Qed.

Lemma loop_body_raise (dir : str) (d : doc) (e : exn) :
  read_text fs (joinpath dir (file d)) = raise e ->
  loop_body joinpath fs dir d = ([], Raise e).
Proof.
  intros H. unfold loop_body. rewrite H. reflexivity.
Qed.

(** [read_text] prints nothing, and either returns the text of the file
    or raises. *)
Lemma read_text_cases (path : str) :
  (exists c, fs path = Text c /\ read_text fs path = ret c) \/
  (exists e, text_at fs path = None /\ read_text fs path = raise e).
Proof.
  unfold read_text, text_at. destruct (fs path); eauto.
Qed.

(** ** The loop *)

Lemma for_each_text (dir : str) (docs : list doc) (cs : list str) :
  contents_of joinpath fs dir docs cs ->
  for_each (loop_body joinpath fs dir) docs = (previews docs cs, Ok tt).
Proof.
  induction 1 as [|d c docs cs Hd _ IH]; simpl.
  - reflexivity.
  - rewrite (loop_body_text _ _ _ Hd), IH. reflexivity.
Qed.

Lemma for_each_raise (dir : str) (pre post : list doc) (d : doc)
    (cs : list str) (e : exn) :
  contents_of joinpath fs dir pre cs ->
  read_text fs (joinpath dir (file d)) = raise e ->
  for_each (loop_body joinpath fs dir) (pre ++ d :: post) =
  (previews pre cs, Raise e).
Proof.
  intros Hpre Hd. induction Hpre as [|x c pre cs Hx _ IH]; simpl.
  - rewrite (loop_body_raise _ _ _ Hd). reflexivity.
  - rewrite (loop_body_text _ _ _ Hx), IH. reflexivity.
Qed.

(** Every run of the loop splits the manifest at the first entry whose
    file is unreadable, if there is one. *)
Lemma for_each_cases (dir : str) (docs : list doc) :
  (exists cs, contents_of joinpath fs dir docs cs) \/
  (exists pre d post cs e,
      docs = pre ++ d :: post /\
      contents_of joinpath fs dir pre cs /\
      text_at fs (joinpath dir (file d)) = None /\
      read_text fs (joinpath dir (file d)) = raise e).
Proof.
  induction docs as [|d docs IH].
  - left. exists []. constructor.
  - destruct (read_text_cases (joinpath dir (file d))) as [[c [Hc _]]|[e [Hn He]]].
    + destruct IH as [[cs Hcs]|[pre [x [post [cs [e [E [Hpre [Hn Hx]]]]]]]]].
      * left. exists (c :: cs). constructor; assumption.
      * right. exists (d :: pre), x, post, (c :: cs), e.
        subst docs. repeat split; try assumption. constructor; assumption.
    + right. exists [], d, docs, [], e. repeat split; try assumption. constructor.
Qed.

End Iteration.

Lemma previews_length (docs : list doc) (cs : list str) :
  length docs = length cs -> length (previews docs cs) = 5 * length docs.
Proof.
  revert cs. induction docs as [|d docs IH]; intros [|c cs] H; simpl in *;
    try reflexivity; try discriminate.
  rewrite IH by lia. lia.
Qed.

Lemma contents_of_length joinpath fs dir docs cs :
  contents_of joinpath fs dir docs cs -> length docs = length cs.
Proof. apply Forall2_length. Qed.

(** ** Decimal numerals *)

Lemma lit_inj (s t : string) : lit s = lit t -> s = t.
Proof.
  unfold lit. intros H.
  rewrite <- (string_of_list_ascii_of_string s),
          <- (string_of_list_ascii_of_string t).
  f_equal.
  revert H. generalize (list_ascii_of_string s) (list_ascii_of_string t).
  induction l as [|a l IH]; intros [|b l'] H; simpl in H;
    try reflexivity; try discriminate.
  inversion H as [[Hab Hl]]. f_equal.
  - rewrite <- (ascii_N_embedding a), <- (ascii_N_embedding b), Hab. reflexivity.
  - exact (IH _ Hl).
Qed.

Lemma to_uint_not_nil (n : nat) : Nat.to_uint n <> Decimal.Nil.
Proof.
  rewrite <- (DecimalNat.Unsigned.of_to n) at 1.
  rewrite DecimalNat.Unsigned.to_of. apply DecimalFacts.unorm_nonnil.
Qed.

(** A decimal numeral denotes one number. *)
Lemma dec_inj (n m : nat) : dec n = dec m -> n = m.
Proof.
  unfold dec. intros H. apply lit_inj in H.
  apply (f_equal NilZero.uint_of_string) in H.
  rewrite !NilZero.usu in H by apply to_uint_not_nil.
  inversion H as [E]. exact (DecimalNat.Unsigned.to_uint_inj _ _ E).
Qed.

(** ** Claims on one entry *)

Lemma leading_token_spec (name : str) :
  (~ In underscore name /\ leading_token name = name) \/
  (exists rest, name = leading_token name ++ underscore :: rest /\
                ~ In underscore (leading_token name)).
Proof.
  unfold leading_token. destruct (find underscore name) as [i|] eqn:F.
  - right. destruct (find_some_spec _ _ _ F) as [H1 H2].
    exists (skipn (S i) name). split; [|exact H2].
    rewrite <- (firstn_skipn i name) at 1. f_equal.
    clear F H2. revert i H1. induction name as [|x s IH]; intros [|i] H; simpl in *;
      try discriminate.
    + inversion H; reflexivity.
    + exact (IH i H).
  - left. split; [exact (find_none_notin _ _ F)|reflexivity].
Qed.

(** C3: the [part] field of the dictionary built for an entry is the file
    name up to, and without, its first underscore, and the whole file name
    when it has no underscore; so "05" for "05_pydantic_ai_complete_code.md"
    and "readme.md" for "readme.md". *)
Theorem part_is_prefix_before_first_underscore :
  (forall (d : doc) (filepath content : str),
      exists (cj : dict) (part : str),
        content_json d filepath content = ret cj /\
        dict_get cj (lit "part") = Some part /\
        ((~ In underscore (file d) /\ part = file d) \/
         (exists rest, file d = part ++ underscore :: rest /\
                       ~ In underscore part))) /\
  (forall t s p c,
      content_json (mkDoc (lit "05_pydantic_ai_complete_code.md") t s) p c =
      ret [ (lit "markdown_content", c); (lit "summary", s);
            (lit "part", lit "05"); (lit "file_reference", p) ]) /\
  (forall t s p c,
      content_json (mkDoc (lit "readme.md") t s) p c =
      ret [ (lit "markdown_content", c); (lit "summary", s);
            (lit "part", lit "readme.md"); (lit "file_reference", p) ]).
Proof.
  split; [|split].
  - intros d filepath content.
    eexists. exists (leading_token (file d)).
    split; [apply content_json_value|]. split; [reflexivity|].
    destruct (leading_token_spec (file d)) as [[H1 H2]|[rest [H1 H2]]].
    + left. split; assumption.
    + right. exists rest. split; assumption.
  - intros. reflexivity.
  - intros. reflexivity.
Qed.

(** C9: a file name that begins with an underscore, such as "_notes.md",
    gives the empty string as [part]: building the dictionary returns, it
    does not raise, and the whole file name is not used instead. *)
Theorem part_of_leading_underscore_is_empty :
  (forall (rest t s filepath content : str),
      content_json (mkDoc (underscore :: rest) t s) filepath content =
      ret [ (lit "markdown_content", content); (lit "summary", s);
            (lit "part", []); (lit "file_reference", filepath) ]) /\
  (forall t s filepath content,
      exists cj,
        content_json (mkDoc (lit "_notes.md") t s) filepath content = ret cj /\
        dict_get cj (lit "part") = Some (lit "")).
Proof.
  split.
  - intros. reflexivity.
  - intros. eexists. split; reflexivity.
Qed.

(** C7: for an entry whose file is readable, the iteration prints five
    strings and nothing else: the title, the file name, the number of
    characters of the content, the keys of the dictionary, which are
    markdown_content, summary, part and file_reference in this order, and a
    rule of sixty hyphens. *)
Theorem preview_block_contents (joinpath : str -> str -> str)
    (fs : str -> file_state) (dir : str) (d : doc) (c : str) :
  fs (joinpath dir (file d)) = Text c ->
  loop_body joinpath fs dir d =
    ([ lit "Document: " ++ title d;
       lit "File: " ++ file d;
       lit "Size: " ++ dec (len c) ++ lit " characters";
       lit "Content keys: ['markdown_content', 'summary', 'part', 'file_reference']";
       times hyphen 60 ],
     Ok tt) /\
  (exists cj,
      content_json d (joinpath dir (file d)) c = ret cj /\
      keys cj = [ lit "markdown_content"; lit "summary"; lit "part";
                  lit "file_reference" ] /\
      lit "Content keys: ['markdown_content', 'summary', 'part', 'file_reference']" =
      lit "Content keys: " ++ repr_list (keys cj)).
Proof.
  intros H. split.
  - rewrite (loop_body_text _ _ _ _ _ H). reflexivity.
  - eexists. split; [apply content_json_value|]. split; reflexivity.
Qed.

Lemma preview_block_contents_witness :
  fs_complete (join_flat (lit "sec") (file doc_two)) = Text (lit "hi") /\
  loop_body join_flat fs_complete (lit "sec") doc_two =
    ([ lit "Document: Two";
       lit "File: b_two.md";
       lit "Size: 2 characters";
       lit "Content keys: ['markdown_content', 'summary', 'part', 'file_reference']";
       lit "------------------------------------------------------------" ],
     Ok tt).
Proof.
  split; [reflexivity|].
  exact (proj1 (preview_block_contents join_flat fs_complete (lit "sec") doc_two
                  (lit "hi") eq_refl)).
Defined.

(** C5: for an entry whose file is readable, the number written on the
    size line of its preview is the number of characters of the text that
    [read_text] returned for its file, and no other number. *)
Theorem reported_size_is_content_length (joinpath : str -> str -> str)
    (fs : str -> file_state) (dir : str) (d : doc) (c : str) :
  fs (joinpath dir (file d)) = Text c ->
  read_text fs (joinpath dir (file d)) = ret c /\
  nth_error (printed (loop_body joinpath fs dir d)) 2 =
    Some (lit "Size: " ++ dec (length c) ++ lit " characters") /\
  (forall n : nat,
      nth_error (printed (loop_body joinpath fs dir d)) 2 =
        Some (lit "Size: " ++ dec n ++ lit " characters") ->
      n = length c).
Proof.
  intros H. split; [|split].
  - unfold read_text. rewrite H. reflexivity.
  - rewrite (loop_body_text _ _ _ _ _ H). reflexivity.
  - intros n. rewrite (loop_body_text _ _ _ _ _ H).
    unfold printed, preview, len. simpl fst. simpl nth_error.
    intros E. inversion E as [E']. clear E.
    apply app_inv_tail in E'.
    symmetry. exact (dec_inj _ _ E').
Qed.

Lemma reported_size_is_content_length_witness :
  fs_complete (join_flat (lit "sec") (file doc_one)) = Text (lit "hello") /\
  nth_error (printed (loop_body join_flat fs_complete (lit "sec") doc_one)) 2 =
    Some (lit "Size: 5 characters").
Proof.
  split; [reflexivity|].
  exact (proj1 (proj2 (reported_size_is_content_length join_flat fs_complete
                         (lit "sec") doc_one (lit "hello") eq_refl))).
Defined.

(** ** Facts on whole runs *)

Section Runs.

Variable joinpath : str -> str -> str.
Variable fs : str -> file_state.

Lemma script_loop (g : globals) :
  script joinpath fs g =
  bind (loop joinpath fs g) (fun _ =>
    bind (print (newline :: lit "To upload these to Archon, call manage_document for each with the content_json structure above."))
         (fun _ => print (newline :: lit "Total documents: " ++ dec (len (g_documents g))))).
Proof. reflexivity. Qed.

Lemma script_ok (g : globals) (out : list str) :
  loop joinpath fs g = (out, Ok tt) ->
  script joinpath fs g = (out ++ trailer (length (g_documents g)), Ok tt).
Proof. intros H. rewrite script_loop, H. reflexivity. Qed.

Lemma script_raise (g : globals) (out : list str) (e : exn) :
  loop joinpath fs g = (out, Raise e) ->
  script joinpath fs g = (out, Raise e).
Proof. intros H. rewrite script_loop, H. reflexivity. Qed.

End Runs.

(** No string of a preview starts with a newline, and only its last string
    is the rule. *)
Lemma preview_heads (d : doc) (c s : str) :
  In s (preview d c) -> exists x rest, s = x :: rest /\ x <> newline.
Proof.
  intros H. simpl in H.
  repeat (destruct H as [H|H]; [subst s; eexists; eexists; split;
                                [reflexivity|discriminate]|]).
  destruct H.
Qed.

Lemma previews_heads (docs : list doc) (cs : list str) (s : str) :
  In s (previews docs cs) -> exists x rest, s = x :: rest /\ x <> newline.
Proof.
  revert cs. induction docs as [|d docs IH]; intros [|c cs] H;
    try (destruct H; fail).
  change (In s (preview d c ++ previews docs cs)) in H.
  apply in_app_or in H. destruct H as [H|H].
  - exact (preview_heads _ _ _ H).
  - exact (IH _ H).
Qed.

Lemma trailer_heads (n : nat) (s : str) :
  In s (trailer n) -> exists rest, s = newline :: rest.
Proof.
  intros [H|[H|[]]]; subst s; eexists; reflexivity.
Qed.

Lemma count_separator_preview (d : doc) (c : str) :
  count_occ str_eq_dec (preview d c) separator = 1.
Proof.
  unfold preview.
  repeat (rewrite count_occ_cons_neq by discriminate).
  rewrite count_occ_cons_eq by reflexivity. reflexivity.
Qed.

Lemma count_separator_previews (docs : list doc) (cs : list str) :
  length docs = length cs ->
  count_occ str_eq_dec (previews docs cs) separator = length docs.
Proof.
  revert cs. induction docs as [|d docs IH]; intros [|c cs] H; simpl in H;
    try reflexivity; try discriminate.
  change (previews (d :: docs) (c :: cs)) with (preview d c ++ previews docs cs).
  rewrite count_occ_app, count_separator_preview, IH by lia.
  reflexivity.
Qed.

Lemma count_separator_trailer (n : nat) :
  count_occ str_eq_dec (trailer n) separator = 0.
Proof.
  unfold trailer. repeat (rewrite count_occ_cons_neq by discriminate). reflexivity.
Qed.

(** The block of the entry at position [i] sits at position [5 * i]. *)
Lemma previews_block (docs : list doc) (cs : list str) (i : nat) (d : doc) (c : str) :
  nth_error docs i = Some d -> nth_error cs i = Some c ->
  firstn 5 (skipn (5 * i) (previews docs cs)) = preview d c.
Proof.
  revert cs i. induction docs as [|x docs IH]; intros [|y cs] [|i] Hd Hc;
    simpl in Hd, Hc; try discriminate.
  - inversion Hd; inversion Hc; subst. reflexivity.
  - replace (5 * S i) with (5 * i + 5) by lia.
    rewrite <- skipn_skipn.
    change (skipn 5 (preview x y ++ previews docs cs)) with (previews docs cs).
    exact (IH _ _ Hd Hc).
Qed.

(** ** Claims on whole runs *)

Lemma contents_of_all_readable (joinpath : str -> str -> str)
    (fs : str -> file_state) (dir : str) (docs : list doc) (cs : list str) :
  contents_of joinpath fs dir docs cs ->
  ~ Exists (fun d => text_at fs (joinpath dir (file d)) = None) docs.
Proof.
  induction 1 as [|d c docs cs Hd _ IH]; intros HE; inversion HE; subst.
  - unfold text_at in *. rewrite Hd in *. discriminate.
  - exact (IH ltac:(assumption)).
Qed.

(** C1: when the file of some entry cannot be read, the manifest splits at
    the first such entry; the run prints the complete previews of the
    entries before it and nothing else, then ends with the exception of the
    read: neither the failing entry nor a later one is previewed, and the
    instruction and the total are not printed. *)
Theorem unreadable_file_aborts_run (joinpath : str -> str -> str)
    (fs : str -> file_state) (g : globals) :
  Exists (fun d => text_at fs (joinpath (g_SECTIONS_DIR g) (file d)) = None)
         (g_documents g) ->
  exists (pre post : list doc) (d : doc) (cs : list str) (e : exn),
    g_documents g = pre ++ d :: post /\
    contents_of joinpath fs (g_SECTIONS_DIR g) pre cs /\
    text_at fs (joinpath (g_SECTIONS_DIR g) (file d)) = None /\
    read_text fs (joinpath (g_SECTIONS_DIR g) (file d)) = raise e /\
    script joinpath fs g = (previews pre cs, Raise e) /\
    length (printed (script joinpath fs g)) = 5 * length pre /\
    count_occ str_eq_dec (printed (script joinpath fs g)) separator = length pre /\
    (forall n s, In s (trailer n) -> ~ In s (printed (script joinpath fs g))).
Proof.
  intros HE.
  destruct (for_each_cases joinpath fs (g_SECTIONS_DIR g) (g_documents g))
    as [[cs Hcs]|[pre [d [post [cs [e [Hg [Hpre [Hd He]]]]]]]]].
  { destruct (contents_of_all_readable _ _ _ _ _ Hcs HE). }
  exists pre, post, d, cs, e.
  assert (Hs : script joinpath fs g = (previews pre cs, Raise e)).
  { apply script_raise. unfold loop. rewrite Hg.
    exact (for_each_raise _ _ _ _ _ _ _ _ Hpre He). }
  rewrite Hs. unfold printed. simpl fst.
  pose proof (contents_of_length _ _ _ _ _ Hpre) as Hlen.
  do 5 (split; [first [assumption|reflexivity]|]).
  split; [exact (previews_length _ _ Hlen)|].
  split; [exact (count_separator_previews _ _ Hlen)|].
  intros n s Ht Hp.
  destruct (trailer_heads _ _ Ht) as [r1 E1].
  destruct (previews_heads _ _ _ Hp) as [x [r2 [E2 Hx]]].
  rewrite E1 in E2. inversion E2. congruence.
Qed.

Lemma unreadable_file_aborts_run_witness :
  Exists (fun d => text_at fs_second_missing
                     (join_flat (g_SECTIONS_DIR sample_globals) (file d)) = None)
         (g_documents sample_globals) /\
  exists (pre : list doc) (cs : list str) (e : exn),
    length pre < length (g_documents sample_globals) /\
    script join_flat fs_second_missing sample_globals = (previews pre cs, Raise e).
Proof.
  assert (H : Exists (fun d => text_at fs_second_missing
                       (join_flat (g_SECTIONS_DIR sample_globals) (file d)) = None)
                (g_documents sample_globals)).
  { apply Exists_cons_tl. apply Exists_cons_hd. reflexivity. }
  split; [exact H|].
  destruct (unreadable_file_aborts_run join_flat fs_second_missing sample_globals H)
    as [pre [post [d [cs [e [Hg [_ [_ [_ [Hs _]]]]]]]]]].
  exists pre, cs, e. split; [|exact Hs].
  rewrite Hg, length_app. simpl. lia.
Defined.

(** The run of the manifest of three entries whose second file is absent:
    one preview, then the exception. *)
Example second_of_three_absent :
  script join_flat fs_second_missing sample_globals =
  (preview doc_one (lit "hello"), Raise (FileNotFoundError (lit "sec/b_two.md"))).
Proof. reflexivity. Qed.

(** The text a run of one entry writes to the stream. *)
Example one_entry_stdout :
  stdout_text
    (printed (script join_flat fs_complete
                (mkGlobals [doc_two] (lit "id-1") (lit "sec")))) =
  lit "Document: Two
File: b_two.md
Size: 2 characters
Content keys: ['markdown_content', 'summary', 'part', 'file_reference']
------------------------------------------------------------

To upload these to Archon, call manage_document for each with the content_json structure above.

Total documents: 1
".
Proof. reflexivity. Qed.

(** C2: when the file of every entry is readable, the run prints one
    preview per entry and then the instruction and the total; the number of
    previews and the number on the last line both equal the length of the
    manifest.  The manifest may also be empty. *)
Theorem readable_run_counts (joinpath : str -> str -> str)
    (fs : str -> file_state) (g : globals) (cs : list str) :
  contents_of joinpath fs (g_SECTIONS_DIR g) (g_documents g) cs ->
  script joinpath fs g =
    (previews (g_documents g) cs ++ trailer (length (g_documents g)), Ok tt) /\
  count_occ str_eq_dec (printed (script joinpath fs g)) separator =
    length (g_documents g) /\
  length (printed (script joinpath fs g)) = 5 * length (g_documents g) + 2 /\
  last (printed (script joinpath fs g)) [] =
    newline :: lit "Total documents: " ++ dec (length (g_documents g)).
Proof.
  intros H.
  pose proof (contents_of_length _ _ _ _ _ H) as Hlen.
  assert (Hs : script joinpath fs g =
               (previews (g_documents g) cs ++ trailer (length (g_documents g)), Ok tt)).
  { apply script_ok. unfold loop. exact (for_each_text _ _ _ _ _ H). }
  rewrite Hs. unfold printed. simpl fst.
  split; [reflexivity|]. split; [|split].
  - rewrite count_occ_app, count_separator_trailer,
      (count_separator_previews _ _ Hlen). lia.
  - rewrite length_app, (previews_length _ _ Hlen). reflexivity.
  - unfold trailer.
    change (previews (g_documents g) cs ++ [?a; ?b])
      with (previews (g_documents g) cs ++ [a] ++ [b]).
    rewrite app_assoc. apply last_last.
Qed.

Lemma readable_run_counts_witness :
  contents_of join_flat fs_everywhere (g_SECTIONS_DIR module_globals)
    (g_documents module_globals) (repeat (lit "# heading") 7) /\
  count_occ str_eq_dec (printed (script join_flat fs_everywhere module_globals))
    separator = 7 /\
  last (printed (script join_flat fs_everywhere module_globals)) [] =
    newline :: lit "Total documents: 7".
Proof.
  assert (H : contents_of join_flat fs_everywhere (g_SECTIONS_DIR module_globals)
                (g_documents module_globals) (repeat (lit "# heading") 7))
    by (repeat constructor).
  split; [exact H|].
  destruct (readable_run_counts join_flat fs_everywhere module_globals _ H)
    as [_ [Hc [_ Hl]]].
  split; [exact Hc|exact Hl].
Defined.

Lemma firstn_length_app {A} (l1 l2 : list A) : firstn (length l1) (l1 ++ l2) = l1.
Proof.
  induction l1 as [|x l1 IH]; simpl; [destruct l2; reflexivity|].
  rewrite IH. reflexivity.
Qed.

Lemma nth_error_length_app {A} (l1 l2 : list A) (x : A) :
  nth_error (l1 ++ x :: l2) (length l1) = Some x.
Proof. induction l1 as [|y l1 IH]; simpl; [reflexivity|exact IH]. Qed.

(** C6: for every manifest, with one entry, with repeated file names or
    with unreadable files, the loop prints the previews of the entries it
    reaches in the order of the manifest, each preview whole and next to
    the one of the following entry: the preview of the entry at position
    [i] is the five strings from position [5 * i] on.  The loop reaches
    every entry when it ends normally; otherwise it reaches the entries
    before the first unreadable file, the one whose read raised. *)
Theorem previews_follow_manifest_order (joinpath : str -> str -> str)
    (fs : str -> file_state) (dir : str) (docs : list doc) :
  exists (n : nat) (cs : list str),
    n <= length docs /\
    contents_of joinpath fs dir (firstn n docs) cs /\
    printed (for_each (loop_body joinpath fs dir) docs) =
      previews (firstn n docs) cs /\
    match outcome (for_each (loop_body joinpath fs dir) docs) with
    | Ok _ => n = length docs
    | Raise e =>
        n < length docs /\
        exists d, nth_error docs n = Some d /\
                  text_at fs (joinpath dir (file d)) = None /\
                  read_text fs (joinpath dir (file d)) = raise e
    end /\
    (forall i d c,
        i < n -> nth_error docs i = Some d -> nth_error cs i = Some c ->
        firstn 5 (skipn (5 * i) (printed (for_each (loop_body joinpath fs dir) docs)))
        = preview d c).
Proof.
  destruct (for_each_cases joinpath fs dir docs)
    as [[cs Hcs]|[pre [d [post [cs [e [E [Hpre [Hn He]]]]]]]]].
  - exists (length docs), cs. rewrite firstn_all.
    rewrite (for_each_text _ _ _ _ _ Hcs). unfold printed, outcome. simpl.
    repeat split; try assumption; try lia.
    intros i d c _ Hd Hc. exact (previews_block _ _ _ _ _ Hd Hc).
  - exists (length pre), cs. subst docs. rewrite firstn_length_app.
    rewrite (for_each_raise _ _ _ _ _ _ _ _ Hpre He). unfold printed, outcome. simpl.
    rewrite length_app. simpl.
    split; [lia|]. split; [exact Hpre|]. split; [reflexivity|]. split.
    + split; [lia|]. exists d. rewrite nth_error_length_app.
      split; [reflexivity|]. split; [exact Hn|exact He].
    + intros i x c Hi Hx Hc. apply previews_block; [|exact Hc].
      rewrite nth_error_app1 in Hx by exact Hi. exact Hx.
Qed.

(** The sample manifest, whose first and third entries name one file, and
    the manifest of its second entry alone. *)
Example sample_run_in_order :
  printed (loop join_flat fs_complete sample_globals) =
    preview doc_one (lit "hello") ++ preview doc_two (lit "hi") ++
    preview doc_one_again (lit "hello") /\
  printed (for_each (loop_body join_flat fs_complete (lit "sec")) [doc_two]) =
    preview doc_two (lit "hi").
Proof. split; reflexivity. Qed.

(** C10: an iteration reads the file before it prints, so an iteration
    whose read fails prints nothing; when the loop fails at entry [k],
    counted from one, what was printed is the [k - 1] complete previews of
    the entries before it, [5 * (k - 1)] strings. *)
Theorem failing_entry_prints_nothing (joinpath : str -> str -> str)
    (fs : str -> file_state) (dir : str) (docs : list doc) (e : exn) :
  outcome (for_each (loop_body joinpath fs dir) docs) = Raise e ->
  exists (k : nat) (d : doc) (cs : list str),
    1 <= k <= length docs /\
    nth_error docs (k - 1) = Some d /\
    contents_of joinpath fs dir (firstn (k - 1) docs) cs /\
    read_text fs (joinpath dir (file d)) = raise e /\
    loop_body joinpath fs dir d = ([], Raise e) /\
    printed (for_each (loop_body joinpath fs dir) docs) =
      previews (firstn (k - 1) docs) cs /\
    length (printed (for_each (loop_body joinpath fs dir) docs)) = 5 * (k - 1) /\
    count_occ str_eq_dec (printed (for_each (loop_body joinpath fs dir) docs))
      separator = k - 1.
Proof.
  intros H.
  destruct (for_each_cases joinpath fs dir docs)
    as [[cs Hcs]|[pre [d [post [cs [e' [E [Hpre [_ He]]]]]]]]].
  { rewrite (for_each_text _ _ _ _ _ Hcs) in H. discriminate. }
  subst docs.
  rewrite (for_each_raise _ _ _ _ _ _ _ _ Hpre He) in *.
  unfold outcome in H. simpl in H. inversion H; subst e'. clear H.
  pose proof (contents_of_length _ _ _ _ _ Hpre) as Hlen.
  exists (S (length pre)), d, cs.
  replace (S (length pre) - 1) with (length pre) by lia.
  rewrite firstn_length_app, nth_error_length_app, length_app.
  unfold printed. simpl.
  repeat split; try assumption; try lia.
  - exact (loop_body_raise _ _ _ _ _ He).
  - exact (previews_length _ _ Hlen).
  - exact (count_separator_previews _ _ Hlen).
Qed.

Lemma failing_entry_prints_nothing_witness :
  outcome (for_each (loop_body join_flat fs_second_denied (lit "sec"))
             [doc_one; doc_two; doc_one_again]) =
    Raise (PermissionError (lit "sec/b_two.md")) /\
  exists k : nat,
    1 <= k <= 3 /\
    length (printed (for_each (loop_body join_flat fs_second_denied (lit "sec"))
                       [doc_one; doc_two; doc_one_again])) = 5 * (k - 1).
Proof.
  assert (H : outcome (for_each (loop_body join_flat fs_second_denied (lit "sec"))
                         [doc_one; doc_two; doc_one_again]) =
              Raise (PermissionError (lit "sec/b_two.md"))) by reflexivity.
  split; [exact H|].
  destruct (failing_entry_prints_nothing join_flat fs_second_denied (lit "sec")
              [doc_one; doc_two; doc_one_again] _ H)
    as [k [d [cs [Hk [_ [_ [_ [_ [_ [Hl _]]]]]]]]]].
  exists k. split; [exact Hk|exact Hl].
Defined.

(** C8: the value bound to PROJECT_ID has no effect: two runs on the same
    manifest, directory and files print the same strings and end the same
    way, whatever value each binds to PROJECT_ID. *)
Theorem PROJECT_ID_is_inert (joinpath : str -> str -> str)
    (fs : str -> file_state) (g1 g2 : globals) :
  g_documents g1 = g_documents g2 ->
  g_SECTIONS_DIR g1 = g_SECTIONS_DIR g2 ->
  script joinpath fs g1 = script joinpath fs g2 /\
  stdout_text (printed (script joinpath fs g1)) =
  stdout_text (printed (script joinpath fs g2)) /\
  (forall p : str,
      script joinpath fs (with_PROJECT_ID p g1) = script joinpath fs g2).
Proof.
  intros Hd Hs.
  assert (E : forall g, script joinpath fs g =
                        script joinpath fs
                          (mkGlobals (g_documents g) [] (g_SECTIONS_DIR g)))
    by reflexivity.
  assert (H : script joinpath fs g1 = script joinpath fs g2).
  { rewrite (E g1), (E g2), Hd, Hs. reflexivity. }
  split; [exact H|]. split; [rewrite H; reflexivity|].
  intros p. rewrite <- H. reflexivity.
Qed.

Lemma PROJECT_ID_is_inert_witness :
  g_documents (with_PROJECT_ID (lit "another-id") module_globals) =
    g_documents module_globals /\
  g_SECTIONS_DIR (with_PROJECT_ID (lit "another-id") module_globals) =
    g_SECTIONS_DIR module_globals /\
  g_PROJECT_ID (with_PROJECT_ID (lit "another-id") module_globals) <>
    g_PROJECT_ID module_globals /\
  script join_flat fs_everywhere (with_PROJECT_ID (lit "another-id") module_globals) =
  script join_flat fs_everywhere module_globals.
Proof.
  split; [reflexivity|]. split; [reflexivity|]. split; [discriminate|].
  exact (proj1 (PROJECT_ID_is_inert join_flat fs_everywhere
                  (with_PROJECT_ID (lit "another-id") module_globals)
                  module_globals eq_refl eq_refl)).
Defined.

(** C4 as stated fails: on one manifest, a missing file ends the run with a
    FileNotFoundError and an undecodable file with a UnicodeDecodeError, so
    no single class covers every read failure, and the second exception is
    no OSError and names no path. *)
Lemma read_failures_differ_in_kind :
  ~ (exists K : exn_class,
        forall (joinpath : str -> str -> str) (fs : str -> file_state)
               (g : globals) (e : exn),
          outcome (script joinpath fs g) = Raise e -> class_of e = K) /\
  ~ (forall (joinpath : str -> str -> str) (fs : str -> file_state)
            (g : globals) (e : exn),
        outcome (script joinpath fs g) = Raise e ->
        is_OSError e = true /\ exn_filename e <> None).
Proof.
  split.
  - intros [K H].
    pose proof (H join_flat fs_second_missing sample_globals
                  (FileNotFoundError (lit "sec/b_two.md")) eq_refl) as H1.
    pose proof (H join_flat fs_second_undecodable sample_globals
                  (UnicodeDecodeError (lit "utf-8") 0 1 (lit "invalid start byte"))
                  eq_refl) as H2.
    rewrite <- H2 in H1. discriminate.
  - intros H.
    destruct (H join_flat fs_second_undecodable sample_globals
                (UnicodeDecodeError (lit "utf-8") 0 1 (lit "invalid start byte"))
                eq_refl) as [H1 _].
    discriminate.
Qed.

(** C4, amended: a read failure surfaces as the exception that [read_text]
    itself raised, unchanged, whatever its class and whether or not it
    names the path; and nothing else ends a run.  A run raises [e] exactly
    when [read_text] raises [e] on an entry all of whose predecessors are
    readable; on a readable file an iteration always completes, and
    building the dictionary never raises. *)
Theorem run_fails_with_the_read_exception (joinpath : str -> str -> str)
    (fs : str -> file_state) (g : globals) (e : exn) :
  (outcome (script joinpath fs g) = Raise e <->
   exists (pre post : list doc) (d : doc) (cs : list str),
     g_documents g = pre ++ d :: post /\
     contents_of joinpath fs (g_SECTIONS_DIR g) pre cs /\
     read_text fs (joinpath (g_SECTIONS_DIR g) (file d)) = raise e) /\
  (forall (d : doc) (c : str),
      fs (joinpath (g_SECTIONS_DIR g) (file d)) = Text c ->
      outcome (loop_body joinpath fs (g_SECTIONS_DIR g) d) = Ok tt) /\
  (forall (d : doc) (filepath content : str),
      exists cj, content_json d filepath content = ret cj).
Proof.
  split; [split|split].
  - intros H.
    destruct (for_each_cases joinpath fs (g_SECTIONS_DIR g) (g_documents g))
      as [[cs Hcs]|[pre [d [post [cs [e' [E [Hpre [_ He]]]]]]]]].
    { rewrite (script_ok joinpath fs g _ (for_each_text _ _ _ _ _ Hcs)) in H.
      discriminate. }
    assert (Hs : script joinpath fs g = (previews pre cs, Raise e')).
    { apply script_raise. unfold loop. rewrite E.
      exact (for_each_raise _ _ _ _ _ _ _ _ Hpre He). }
    rewrite Hs in H. unfold outcome in H. simpl in H. inversion H; subst e'.
    exists pre, post, d, cs. repeat split; assumption.
  - intros [pre [post [d [cs [E [Hpre He]]]]]].
    rewrite (script_raise joinpath fs g (previews pre cs) e); [reflexivity|].
    unfold loop. rewrite E. exact (for_each_raise _ _ _ _ _ _ _ _ Hpre He).
  - intros d c H. rewrite (loop_body_text _ _ _ _ _ H). reflexivity.
  - intros d filepath content. eexists. apply content_json_value.
Qed.

Lemma run_fails_with_the_read_exception_witness :
  outcome (script join_flat fs_second_undecodable sample_globals) =
    Raise (UnicodeDecodeError (lit "utf-8") 0 1 (lit "invalid start byte")) /\
  exists (pre post : list doc) (d : doc),
    g_documents sample_globals = pre ++ d :: post /\
    read_text fs_second_undecodable
      (join_flat (g_SECTIONS_DIR sample_globals) (file d)) =
    raise (UnicodeDecodeError (lit "utf-8") 0 1 (lit "invalid start byte")).
Proof.
  assert (H : outcome (script join_flat fs_second_undecodable sample_globals) =
              Raise (UnicodeDecodeError (lit "utf-8") 0 1 (lit "invalid start byte")))
    by reflexivity.
  split; [exact H|].
  destruct (proj1 (proj1 (run_fails_with_the_read_exception join_flat
                            fs_second_undecodable sample_globals _)) H)
    as [pre [post [d [cs [Hg [_ Hr]]]]]].
  exists pre, post, d. split; [exact Hg|exact Hr].
Defined.

(** A run over a directory, over a path under a plain file, over a name
    with a NUL character and over a file that fails while it is read: each
    ends with what the read raised. *)
Example other_read_failures :
  outcome (script join_flat
             (fs_of_table [ (lit "sec/a_one.md", IsDirectory) ]) sample_globals) =
    Raise (IsADirectoryError (lit "sec/a_one.md")) /\
  outcome (script join_flat
             (fs_of_table [ (lit "sec/a_one.md", NotUnderDirectory) ]) sample_globals) =
    Raise (NotADirectoryError (lit "sec/a_one.md")) /\
  outcome (script join_flat
             (fs_of_table [ (lit "sec/a_one.md", InvalidName) ]) sample_globals) =
    Raise (ValueError (lit "embedded null byte")) /\
  outcome (script join_flat
             (fs_of_table [ (lit "sec/a_one.md", OtherFailure (OSError 5 None)) ])
             sample_globals) =
    Raise (OSError 5 None).
Proof. repeat split. Qed.

(** * Further properties of the script *)

(** ** The loop over a manifest in two parts *)

Lemma bind_assoc {A B C} (m : io A) (f : A -> io B) (k : B -> io C) :
  bind (bind m f) k = bind m (fun a => bind (f a) k).
Proof.
  destruct m as [out [a|e]]; [|reflexivity].
  unfold bind at 2 3. destruct (f a) as [out1 [b|e1]]; [|reflexivity].
  unfold bind. destruct (k b) as [out2 r]. rewrite List.app_assoc. reflexivity.
Qed.

Lemma for_each_app {A} (body : A -> io unit) (l1 l2 : list A) :
  for_each body (l1 ++ l2) =
  bind (for_each body l1) (fun _ => for_each body l2).
Proof.
  induction l1 as [|x l1 IH]; cbn [app for_each].
  - rewrite bind_ret_l. reflexivity.
  - rewrite IH, bind_assoc. reflexivity.
Qed.

(** ** When a run ends normally *)

Lemma readable_contents (joinpath : str -> str -> str) (fs : str -> file_state)
    (dir : str) (docs : list doc) :
  Forall (fun d => text_at fs (joinpath dir (file d)) <> None) docs ->
  exists cs, contents_of joinpath fs dir docs cs.
Proof.
  induction 1 as [|d docs Hd _ [cs IH]].
  - exists []. constructor.
  - unfold text_at in Hd.
    destruct (fs (joinpath dir (file d))) as [c| | | | | | |] eqn:E;
      try (exfalso; apply Hd; reflexivity).
    exists (c :: cs). constructor; assumption.
Qed.

(** X2: a run ends normally exactly when the file of every entry of the
    manifest is readable; an empty manifest always does. *)
Theorem run_ends_normally_iff_all_readable (joinpath : str -> str -> str)
    (fs : str -> file_state) (g : globals) :
  outcome (script joinpath fs g) = Ok tt <->
  Forall (fun d => text_at fs (joinpath (g_SECTIONS_DIR g) (file d)) <> None)
         (g_documents g).
Proof.
  split.
  - intros H.
    destruct (for_each_cases joinpath fs (g_SECTIONS_DIR g) (g_documents g))
      as [[cs Hcs]|[pre [d [post [cs [e [E [Hpre [_ He]]]]]]]]].
    + clear H. induction Hcs as [|d c docs cs Hd _ IH]; constructor.
      * unfold text_at. rewrite Hd. discriminate.
      * exact IH.
    + rewrite (script_raise joinpath fs g (previews pre cs) e) in H.
      * discriminate.
      * unfold loop. rewrite E. exact (for_each_raise _ _ _ _ _ _ _ _ Hpre He).
  - intros H. destruct (readable_contents _ _ _ _ H) as [cs Hcs].
    rewrite (script_ok joinpath fs g _ (for_each_text _ _ _ _ _ Hcs)).
    reflexivity.
Qed.

(** ** What a run reads and what it shows *)

Lemma same_size_eq (s1 s2 : file_state) : s1 = s2 -> same_size s1 s2.
Proof. intros ->. destruct s2; reflexivity. Qed.

Lemma loop_body_same_size (joinpath : str -> str -> str)
    (fs1 fs2 : str -> file_state) (dir : str) (d : doc) :
  same_size (fs1 (joinpath dir (file d))) (fs2 (joinpath dir (file d))) ->
  loop_body joinpath fs1 dir d = loop_body joinpath fs2 dir d.
Proof.
  intros H.
  destruct (fs1 (joinpath dir (file d))) as [c1| | | | | | |] eqn:E1;
    destruct (fs2 (joinpath dir (file d))) as [c2| | | | | | |] eqn:E2;
    simpl in H; try contradiction; try discriminate;
    try (unfold loop_body, read_text; rewrite E1, E2; inversion H; reflexivity).
  rewrite (loop_body_text _ _ _ _ _ E1), (loop_body_text _ _ _ _ _ E2).
  unfold preview, len. rewrite H. reflexivity.
Qed.

Lemma for_each_same_size (joinpath : str -> str -> str)
    (fs1 fs2 : str -> file_state) (dir : str) (docs : list doc) :
  Forall (fun d => same_size (fs1 (joinpath dir (file d)))
                             (fs2 (joinpath dir (file d)))) docs ->
  for_each (loop_body joinpath fs1 dir) docs =
  for_each (loop_body joinpath fs2 dir) docs.
Proof.
  induction 1 as [|d docs Hd _ IH]; simpl; [reflexivity|].
  rewrite (loop_body_same_size joinpath fs1 fs2 dir d Hd), IH. reflexivity.
Qed.

(** X3: a run looks at the files its manifest names and at no other, and
    of a readable file it shows the number of characters only: two file
    systems that, at the path of every entry, hold texts of the same length
    or fail the same way give the same output and the same end. *)
Theorem run_shows_only_sizes_of_manifest_files (joinpath : str -> str -> str)
    (fs1 fs2 : str -> file_state) (g : globals) :
  Forall (fun d => same_size (fs1 (joinpath (g_SECTIONS_DIR g) (file d)))
                             (fs2 (joinpath (g_SECTIONS_DIR g) (file d))))
         (g_documents g) ->
  script joinpath fs1 g = script joinpath fs2 g.
Proof.
  intros H. rewrite !script_loop. unfold loop.
  rewrite (for_each_same_size joinpath fs1 fs2 _ _ H). reflexivity.
Qed.

Lemma run_shows_only_sizes_of_manifest_files_witness :
  Forall (fun d => same_size
                     (fs_complete (join_flat (g_SECTIONS_DIR sample_globals) (file d)))
                     (fs_other_texts (join_flat (g_SECTIONS_DIR sample_globals) (file d))))
         (g_documents sample_globals) /\
  Forall (fun d => same_size
                     (fs_complete (join_flat (g_SECTIONS_DIR sample_globals) (file d)))
                     (fs_one_more (join_flat (g_SECTIONS_DIR sample_globals) (file d))))
         (g_documents sample_globals) /\
  script join_flat fs_complete sample_globals =
  script join_flat fs_other_texts sample_globals /\
  script join_flat fs_complete sample_globals =
  script join_flat fs_one_more sample_globals.
Proof.
  assert (H1 : Forall (fun d => same_size
                     (fs_complete (join_flat (g_SECTIONS_DIR sample_globals) (file d)))
                     (fs_other_texts (join_flat (g_SECTIONS_DIR sample_globals) (file d))))
         (g_documents sample_globals))
    by (repeat constructor).
  assert (H2 : Forall (fun d => same_size
                     (fs_complete (join_flat (g_SECTIONS_DIR sample_globals) (file d)))
                     (fs_one_more (join_flat (g_SECTIONS_DIR sample_globals) (file d))))
         (g_documents sample_globals))
    by (repeat constructor).
  split; [exact H1|]. split; [exact H2|]. split.
  - exact (run_shows_only_sizes_of_manifest_files join_flat fs_complete
             fs_other_texts sample_globals H1).
  - exact (run_shows_only_sizes_of_manifest_files join_flat fs_complete
             fs_one_more sample_globals H2).
Defined.

Lemma for_each_unreadable_last (joinpath : str -> str -> str)
    (fs : str -> file_state) (dir : str) (pre : list doc) (d : doc) :
  text_at fs (joinpath dir (file d)) = None ->
  exists out e, for_each (loop_body joinpath fs dir) (pre ++ [d]) = (out, Raise e).
Proof.
  intros H. rewrite for_each_app.
  destruct (for_each (loop_body joinpath fs dir) pre) as [out [[]|e]].
  - destruct (read_text_cases fs (joinpath dir (file d))) as [[c [Hc _]]|[e [_ He]]].
    + unfold text_at in H. rewrite Hc in H. discriminate.
    + exists out, e. simpl. rewrite (loop_body_raise _ _ _ _ _ He). simpl.
      rewrite List.app_nil_r. reflexivity.
  - exists out, e. reflexivity.
Qed.

(** X4: the entries after an unreadable one play no part in the run: their
    files are not read and they are not looked at.  Replacing them by any
    other entries, and changing any file but those of the entries up to the
    unreadable one, leaves the run as it is. *)
Theorem entries_after_failure_play_no_part (joinpath : str -> str -> str)
    (fs1 fs2 : str -> file_state) (g : globals) (pre post post' : list doc)
    (d : doc) :
  g_documents g = pre ++ d :: post ->
  text_at fs1 (joinpath (g_SECTIONS_DIR g) (file d)) = None ->
  Forall (fun x => fs1 (joinpath (g_SECTIONS_DIR g) (file x)) =
                   fs2 (joinpath (g_SECTIONS_DIR g) (file x))) (pre ++ [d]) ->
  script joinpath fs2
    (mkGlobals (pre ++ d :: post') (g_PROJECT_ID g) (g_SECTIONS_DIR g)) =
  script joinpath fs1 g.
Proof.
  intros Hg Hd Hsame.
  destruct (for_each_unreadable_last joinpath fs1 (g_SECTIONS_DIR g) pre d Hd)
    as [out [e He]].
  assert (He2 : for_each (loop_body joinpath fs2 (g_SECTIONS_DIR g)) (pre ++ [d]) =
                (out, Raise e)).
  { rewrite <- He. symmetry. apply for_each_same_size.
    eapply Forall_impl; [|exact Hsame]. intros x Hx. exact (same_size_eq _ _ Hx). }
  assert (E : forall l, pre ++ d :: l = (pre ++ [d]) ++ l).
  { intros l. rewrite <- List.app_assoc. reflexivity. }
  rewrite (script_raise joinpath fs1 g out e).
  - apply script_raise. unfold loop. simpl.
    rewrite E, for_each_app, He2. reflexivity.
  - unfold loop. rewrite Hg, E, for_each_app, He. reflexivity.
Qed.

Lemma entries_after_failure_play_no_part_witness :
  text_at fs_nothing (join_flat (lit "sec") (file doc_two)) = None /\
  fs_nothing (join_flat (lit "sec") (file doc_one)) <>
  fs_second_missing (join_flat (lit "sec") (file doc_one)) /\
  script join_flat fs_second_missing
    (mkGlobals [doc_two; doc_one_again; doc_one] (lit "id-1") (lit "sec")) =
  script join_flat fs_nothing
    (mkGlobals [doc_two; doc_one] (lit "id-1") (lit "sec")).
Proof.
  split; [reflexivity|]. split; [discriminate|].
  apply (entries_after_failure_play_no_part join_flat fs_nothing
           fs_second_missing
           (mkGlobals [doc_two; doc_one] (lit "id-1") (lit "sec"))
           [] [doc_one] [doc_one_again; doc_one] doc_two).
  - reflexivity.
  - reflexivity.
  - repeat constructor.
Defined.

(** ** What of an entry reaches the output *)

Lemma loop_body_same_labels (joinpath : str -> str -> str)
    (fs : str -> file_state) (dir : str) (d1 d2 : doc) :
  file d1 = file d2 -> title d1 = title d2 ->
  loop_body joinpath fs dir d1 = loop_body joinpath fs dir d2.
Proof.
  intros Hf Ht.
  destruct (read_text_cases fs (joinpath dir (file d1))) as [[c [Hc _]]|[e [_ He]]].
  - rewrite (loop_body_text _ _ _ _ _ Hc).
    rewrite Hf in Hc. rewrite (loop_body_text _ _ _ _ _ Hc).
    unfold preview. rewrite Hf, Ht. reflexivity.
  - rewrite (loop_body_raise _ _ _ _ _ He).
    rewrite Hf in He. rewrite (loop_body_raise _ _ _ _ _ He). reflexivity.
Qed.

(** X5: the summary of an entry goes into the dictionary and no further:
    two manifests with the same file names and titles, entry by entry,
    give the same run whatever their summaries are. *)
Theorem summary_never_reaches_output (joinpath : str -> str -> str)
    (fs : str -> file_state) (g1 g2 : globals) :
  g_SECTIONS_DIR g1 = g_SECTIONS_DIR g2 ->
  map (fun d => (file d, title d)) (g_documents g1) =
  map (fun d => (file d, title d)) (g_documents g2) ->
  script joinpath fs g1 = script joinpath fs g2.
Proof.
  intros Hdir Hmap. rewrite !script_loop. unfold loop. rewrite Hdir.
  assert (Hlen : len (g_documents g1) = len (g_documents g2)).
  { unfold len. rewrite <- (length_map (fun d => (file d, title d)) (g_documents g1)),
      Hmap, length_map. reflexivity. }
  rewrite Hlen.
  assert (E : for_each (loop_body joinpath fs (g_SECTIONS_DIR g2)) (g_documents g1) =
              for_each (loop_body joinpath fs (g_SECTIONS_DIR g2)) (g_documents g2)).
  { clear Hlen Hdir. revert Hmap.
    generalize (g_documents g2). generalize (g_documents g1).
    induction l as [|d1 l IH]; intros [|d2 l'] H; simpl in H; try discriminate.
    - reflexivity.
    - inversion H as [[Hf Ht Hrest]]. simpl.
      rewrite (loop_body_same_labels joinpath fs _ d1 d2 Hf Ht), (IH _ Hrest).
      reflexivity. }
  rewrite E. reflexivity.
Qed.

Lemma summary_never_reaches_output_witness :
  g_documents sample_globals <> g_documents sample_globals_resummarised /\
  script join_flat fs_complete sample_globals =
  script join_flat fs_complete sample_globals_resummarised.
Proof.
  split; [discriminate|].
  exact (summary_never_reaches_output join_flat fs_complete sample_globals
           sample_globals_resummarised eq_refl eq_refl).
Defined.

Lemma bind_outcome {A B} (m : io A) (k : A -> io B) :
  outcome (bind m k) =
  match outcome m with Ok a => outcome (k a) | Raise e => Raise e end.
Proof.
  destruct m as [out [a|e]]; unfold outcome; simpl; [|reflexivity].
  destruct (k a); reflexivity.
Qed.

Lemma bind_printed_length {A B} (m : io A) (k : A -> io B) :
  length (printed (bind m k)) =
  length (printed m) +
  match outcome m with Ok a => length (printed (k a)) | Raise _ => 0 end.
Proof.
  destruct m as [out [a|e]]; unfold outcome, printed; simpl; [|lia].
  destruct (k a); simpl. apply length_app.
Qed.

Lemma loop_body_same_file (joinpath : str -> str -> str)
    (fs : str -> file_state) (dir : str) (d1 d2 : doc) :
  file d1 = file d2 ->
  outcome (loop_body joinpath fs dir d1) = outcome (loop_body joinpath fs dir d2) /\
  length (printed (loop_body joinpath fs dir d1)) =
  length (printed (loop_body joinpath fs dir d2)).
Proof.
  intros Hf.
  destruct (read_text_cases fs (joinpath dir (file d1))) as [[c [Hc _]]|[e [_ He]]].
  - rewrite (loop_body_text _ _ _ _ _ Hc).
    rewrite Hf in Hc. rewrite (loop_body_text _ _ _ _ _ Hc). split; reflexivity.
  - rewrite (loop_body_raise _ _ _ _ _ He).
    rewrite Hf in He. rewrite (loop_body_raise _ _ _ _ _ He). split; reflexivity.
Qed.

(** X6: whether a run fails, with which exception, and how many strings it
    prints depend on the file names of the manifest only: two manifests
    with the same file names, entry by entry, end the same way after the
    same number of strings, whatever their titles and summaries are. *)
Theorem outcome_depends_on_file_names (joinpath : str -> str -> str)
    (fs : str -> file_state) (g1 g2 : globals) :
  g_SECTIONS_DIR g1 = g_SECTIONS_DIR g2 ->
  map file (g_documents g1) = map file (g_documents g2) ->
  outcome (script joinpath fs g1) = outcome (script joinpath fs g2) /\
  length (printed (script joinpath fs g1)) =
  length (printed (script joinpath fs g2)).
Proof.
  intros Hdir Hmap. rewrite !script_loop. unfold loop. rewrite Hdir.
  assert (E : outcome (for_each (loop_body joinpath fs (g_SECTIONS_DIR g2))
                         (g_documents g1)) =
              outcome (for_each (loop_body joinpath fs (g_SECTIONS_DIR g2))
                         (g_documents g2)) /\
              length (printed (for_each (loop_body joinpath fs (g_SECTIONS_DIR g2))
                                 (g_documents g1))) =
              length (printed (for_each (loop_body joinpath fs (g_SECTIONS_DIR g2))
                                 (g_documents g2)))).
  { clear Hdir. revert Hmap.
    generalize (g_documents g2). generalize (g_documents g1).
    induction l as [|d1 l IH]; intros [|d2 l'] H; simpl in H; try discriminate.
    - split; reflexivity.
    - inversion H as [[Hf Hrest]]. cbn [for_each].
      destruct (loop_body_same_file joinpath fs (g_SECTIONS_DIR g2) d1 d2 Hf)
        as [Ho Hl].
      destruct (IH _ Hrest) as [IHo IHl].
      rewrite !bind_outcome, !bind_printed_length, Ho, Hl.
      destruct (outcome (loop_body joinpath fs (g_SECTIONS_DIR g2) d2));
        split; congruence. }
  destruct E as [Eo El].
  rewrite !bind_outcome, !bind_printed_length, Eo, El.
  destruct (outcome (for_each (loop_body joinpath fs (g_SECTIONS_DIR g2))
                       (g_documents g2))); split; reflexivity.
Qed.

Lemma outcome_depends_on_file_names_witness :
  map title (g_documents sample_globals) <>
  map title (g_documents sample_globals_relabelled) /\
  outcome (script join_flat fs_second_denied sample_globals) =
  outcome (script join_flat fs_second_denied sample_globals_relabelled) /\
  length (printed (script join_flat fs_second_denied sample_globals)) =
  length (printed (script join_flat fs_second_denied sample_globals_relabelled)).
Proof.
  split; [discriminate|].
  exact (outcome_depends_on_file_names join_flat fs_second_denied sample_globals
           sample_globals_relabelled eq_refl eq_refl).
Defined.

(** ** Splitting a file name *)

(** X8: splitting at a separator loses nothing: joining the pieces with
    the separator gives the string back, no piece holds the separator, and
    there is one piece more than there are separators in the string. *)
Theorem split_join_round_trip (sep : char) (s : str) :
  join [sep] (split sep s) = s /\
  Forall (fun p => ~ In sep p) (split sep s) /\
  length (split sep s) = S (count_occ N.eq_dec s sep).
Proof.
  induction s as [|c s [IHj [IHf IHl]]].
  - simpl. repeat split. constructor; [tauto|constructor].
  - cbn [split]. destruct (N.eqb_spec c sep) as [E|E].
    + subst c. rewrite count_occ_cons_eq by reflexivity.
      destruct (split_head sep s) as [rest Hs]. rewrite Hs in *.
      split; [|split].
      * cbn [join]. cbn [join] in IHj. simpl. f_equal. exact IHj.
      * constructor; [tauto|exact IHf].
      * simpl. simpl in IHl. rewrite IHl. reflexivity.
    + rewrite count_occ_cons_neq by exact E.
      destruct (split sep s) as [|p ps] eqn:Hs; [discriminate|].
      split; [|split].
      * destruct ps; simpl in *; rewrite IHj; reflexivity.
      * inversion IHf as [|? ? Hp Hps]; subst.
        constructor; [|exact Hps].
        intros [F|F]; [exact (E F)|exact (Hp F)].
      * exact IHl.
Qed.

(** ** Dictionary displays *)

Lemma dict_set_fresh (d : dict) (k v : str) :
  ~ In k (keys d) -> dict_set d k v = d ++ [(k, v)].
Proof.
  induction d as [|[k' v'] d IH]; simpl; intros H; [reflexivity|].
  destruct (str_eq_dec k' k) as [E|E]; [tauto|].
  rewrite IH by tauto. reflexivity.
Qed.

Lemma dict_display_from (acc items : list (str * str)) :
  NoDup (map fst (acc ++ items)) ->
  fold_left (fun d kv => dict_set d (fst kv) (snd kv)) items acc = acc ++ items.
Proof.
  revert acc. induction items as [|[k v] items IH]; intros acc H; simpl.
  - rewrite List.app_nil_r. reflexivity.
  - assert (Hk : ~ In k (keys acc)).
    { rewrite map_app in H. simpl in H. apply NoDup_remove_2 in H.
      intros F. apply H. apply in_or_app. left. exact F. }
    rewrite (dict_set_fresh _ _ _ Hk), IH.
    + rewrite <- List.app_assoc. reflexivity.
    + rewrite <- List.app_assoc. exact H.
Qed.

Lemma dict_get_in (d : dict) (k v : str) :
  NoDup (keys d) -> In (k, v) d -> dict_get d k = Some v.
Proof.
  induction d as [|[k' v'] d IH]; simpl; intros Hn Hin; [destruct Hin|].
  inversion Hn as [|? ? Hk Hd]; subst.
  destruct (str_eq_dec k' k) as [E|E].
  - destruct Hin as [Hin|Hin]; [congruence|].
    subst k'. exfalso. apply Hk. apply (in_map fst) in Hin. exact Hin.
  - destruct Hin as [Hin|Hin]; [congruence|]. exact (IH Hd Hin).
Qed.

(** X9: a dictionary display whose keys are all different keeps every
    item: its keys are the keys as written, in that order, and each key
    gives the value written next to it. *)
Theorem dict_display_distinct_keys (items : list (str * str)) :
  NoDup (map fst items) ->
  dict_display items = items /\
  keys (dict_display items) = map fst items /\
  (forall k v, In (k, v) items -> dict_get (dict_display items) k = Some v).
Proof.
  intros H.
  assert (E : dict_display items = items).
  { unfold dict_display. exact (dict_display_from [] items H). }
  rewrite E. split; [reflexivity|]. split; [reflexivity|].
  intros k v Hin. exact (dict_get_in _ _ _ H Hin).
Qed.

Lemma dict_display_distinct_keys_witness :
  NoDup (map fst [ (lit "summary", lit "first"); (lit "part", lit "a") ]) /\
  keys (dict_display [ (lit "summary", lit "first"); (lit "part", lit "a") ]) =
    [ lit "summary"; lit "part" ].
Proof.
  assert (H : NoDup (map fst [ (lit "summary", lit "first"); (lit "part", lit "a") ])).
  { repeat (constructor; [cbn [In map fst]; intuition discriminate|]). constructor. }
  split; [exact H|].
  exact (proj1 (proj2 (dict_display_distinct_keys
                         [ (lit "summary", lit "first"); (lit "part", lit "a") ] H))).
Defined.
